(** * universal_router.c: the exec-family interception shim

    A shallow embedding of
    [packages/sandbox/container_src/lib/universal_router.c] and the
    properties of its routing policy, request encoder, transport client,
    fallback and entry-point adapters.

    C strings are [string]s (the end of the string stands for the
    terminating NUL), NULL-terminated vectors are [list string]s, and a
    pointer that may be NULL is an [option]. *)

From Stdlib Require Import List String Ascii ZArith Lia Bool.
Import ListNotations.
Local Open Scope string_scope.
Local Open Scope Z_scope.

Set Implicit Arguments.

(** ** The libc functions the shim calls *)

Module Libc.

Definition byte_of (c : ascii) : Z := Z.of_N (N_of_ascii c).

(** [strncmp(s1, s2, n)]: compares at most [n] bytes and stops at a NUL
    (the end of either string); the result is the difference of the first
    two bytes that differ, taken as unsigned chars. *)
Fixpoint strncmp (s1 s2 : string) (n : nat) {struct n} : Z :=
  match n with
  | O => 0
  | S n' =>
      match s1, s2 with
      | EmptyString, EmptyString => 0
      | EmptyString, String c2 _ => 0 - byte_of c2
      | String c1 _, EmptyString => byte_of c1 - 0
      | String c1 r1, String c2 r2 =>
          if Ascii.eqb c1 c2 then strncmp r1 r2 n' else byte_of c1 - byte_of c2
      end
  end.

(** [snprintf(buf, size, ...)] keeps the first [size - 1] bytes of the
    formatted text. *)
Definition snprintf (size : nat) (formatted : string) : string :=
  substring 0 (size - 1) formatted.

(** The text of [s] after the prefix [p], when [s] starts with [p]. *)
Fixpoint strip_prefix (p s : string) : option string :=
  match p, s with
  | EmptyString, _ => Some s
  | String a p', String b s' => if Ascii.eqb a b then strip_prefix p' s' else None
  | String _ _, EmptyString => None
  end.

(** [getenv(name)] over the environment table: the value of the first
    entry of the form [name=value]. *)
Fixpoint getenv (env : list string) (name : string) : option string :=
  match env with
  | [] => None
  | e :: rest =>
      match strip_prefix (name ++ "=") e with
      | Some v => Some v
      | None => getenv rest name
      end
  end.

(** The tokens that successive calls [strtok(s, delim)], [strtok(NULL,
    delim)], ... return for a one-byte delimiter: the maximal runs of
    bytes other than the delimiter; empty runs are skipped.  [cur] is the
    token being read. *)
Fixpoint strtok_from (delim : ascii) (cur s : string) : list string :=
  match s with
  | EmptyString => match cur with EmptyString => [] | _ => [cur] end
  | String c r =>
      if Ascii.eqb c delim
      then match cur with
           | EmptyString => strtok_from delim "" r
           | _ => cur :: strtok_from delim "" r
           end
      else strtok_from delim (cur ++ String c "") r
  end.

Definition strtok (s : string) (delim : ascii) : list string :=
  strtok_from delim "" s.

(** [atoi], as glibc has it: [(int) strtol(s, NULL, 10)].  Leading white
    space is skipped, one sign is read, then the longest run of decimal
    digits; with no digit the value is 0.  [strtol] saturates at the
    bounds of [long] and the conversion to [int] keeps the low 32 bits. *)
Definition isspace (c : ascii) : bool :=
  let b := byte_of c in (b =? 32) || ((9 <=? b) && (b <=? 13)).

Definition isdigit (c : ascii) : bool :=
  let b := byte_of c in (48 <=? b) && (b <=? 57).

Fixpoint skip_space (s : string) : string :=
  match s with
  | String c r => if isspace c then skip_space r else s
  | EmptyString => s
  end.

Fixpoint digits_value (acc : Z) (s : string) : Z :=
  match s with
  | String c r =>
      if isdigit c then digits_value (10 * acc + (byte_of c - 48)) r else acc
  | EmptyString => acc
  end.

Definition LONG_MAX : Z := 2 ^ 63 - 1.
Definition LONG_MIN : Z := - 2 ^ 63.

Definition strtol10 (s : string) : Z :=
  let v :=
    match skip_space s with
    | String "-" r => - digits_value 0 r
    | String "+" r => digits_value 0 r
    | t => digits_value 0 t
    end in
  Z.max LONG_MIN (Z.min LONG_MAX v).

Definition to_int (z : Z) : Z := (z + 2 ^ 31) mod 2 ^ 32 - 2 ^ 31.

Definition atoi (s : string) : Z := to_int (strtol10 s).

End Libc.

(** ** The process and its calls *)

(** What the shim reads and writes of its process: the environment table
    behind [environ], and the lines it has written to the daemon socket
    (each [dprintf(sock, "...\n")] adds one line, kept without its
    newline). *)
Record proc : Type := mkProc {
  environ : list string;
  wire : list string
}.

(** How a call ends: it returns to its caller, the process terminates by
    [exit(status)], or a successful exec replaces the process image. *)
Inductive result (A : Type) : Type :=
| Returned (a : A) (s : proc)
| Exited (status : Z) (s : proc)
| Replaced (pathname : string) (argv envp : option (list string)) (s : proc).

Arguments Exited {A} status s.
Arguments Replaced {A} pathname argv envp s.

Definition M (A : Type) : Type := proc -> result A.

Definition ret {A} (a : A) : M A := fun s => Returned a s.

Definition bind {A B} (m : M A) (k : A -> M B) : M B :=
  fun s =>
    match m s with
    | Returned a s' => k a s'
    | Exited status s' => Exited status s'
    | Replaced p a e s' => Replaced p a e s'
    end.

Notation "x <- m ;; k" := (bind m (fun x => k))
  (at level 61, m at next level, right associativity).
Notation "m ;; k" := (bind m (fun _ => k))
  (at level 61, right associativity).

Definition get_environ : M (list string) := fun s => Returned (environ s) s.

Definition set_environ (env : list string) : M unit :=
  fun s => Returned tt (mkProc env (wire s)).

Definition getenv (name : string) : M (option string) :=
  fun s => Returned (Libc.getenv (environ s) name) s.

Definition dprintf (line : string) : M unit :=
  fun s => Returned tt (mkProc (environ s) (wire s ++ [line])).

Definition exit {A} (status : Z) : M A := fun s => Exited status s.

(** The bytes on the socket: every line followed by its newline. *)
Definition wire_bytes (s : proc) : string :=
  String.concat "" (map (fun l => l ++ String "010" "") (wire s)).

(** ** The shim *)

(** What the transport meets on one routing attempt: whether [socket] and
    [connect] succeed, and what [read] finds on the connection ([None]: the
    read fails; [Some bytes]: the bytes the daemon has sent, none at end of
    file). *)
Record transport : Type := mkTransport {
  socket_ok : bool;
  connect_ok : bool;
  response : option string
}.

(** [read(sock, buf, count)]: the byte count returned ([-1] on failure) and
    the bytes stored in [buf]. *)
Definition read (net : transport) (count : nat) : Z * string :=
  match response net with
  | None => (-1, "")
  | Some bytes =>
      let got := substring 0 count bytes in
      (Z.of_nat (String.length got), got)
  end.

Definition ACTIVATION : string := "SANDBOX_ROUTE_TO_CONTEXT".
Definition INJECTION : string := "LD_PRELOAD".

(** The test both filters apply to an environment entry:
    [strncmp(e, "SANDBOX_ROUTE_TO_CONTEXT=", 26) != 0 &&
     strncmp(e, "LD_PRELOAD=", 11) != 0]. *)
Definition keeps (e : string) : bool :=
  negb (Libc.strncmp e "SANDBOX_ROUTE_TO_CONTEXT=" 26 =? 0) &&
  negb (Libc.strncmp e "LD_PRELOAD=" 11 =? 0).

(** Entries of the form [name=value], for any value. *)
Definition names (name e : string) : Prop :=
  exists value, e = name ++ "=" ++ value.

Section Shim.

(** The stream handle type [FILE]. *)
Variable FILE : Type.

(** The real primitives, as [init] resolves them with
    [dlsym(RTLD_NEXT, ...)]. *)
Variable real_execve :
  string -> option (list string) -> option (list string) -> M Z.
Variable real_execvp : string -> option (list string) -> M Z.
Variable real_system : option string -> M Z.
Variable real_popen : string -> string -> M (option FILE).

(** [access(path, X_OK) == 0] on the file system. *)
Variable access_X_OK : string -> bool.

(** The routing daemon as this call meets it. *)
Variable net : transport.

Definition should_route : M bool :=
  target <- getenv "SANDBOX_ROUTE_TO_CONTEXT" ;;
  ret (match target with Some _ => true | None => false end).

(** [for (i = 0; argv[i]; i++) dprintf(sock, "ARG:%s\n", argv[i]);] *)
Fixpoint send_args (argv : list string) : M unit :=
  match argv with
  | [] => ret tt
  | a :: rest => dprintf ("ARG:" ++ a) ;; send_args rest
  end.

(** [for (i = 0; envp[i]; i++) if (...) dprintf(sock, "ENV:%s\n", envp[i]);] *)
Fixpoint send_env (envp : list string) : M unit :=
  match envp with
  | [] => ret tt
  | e :: rest =>
      (if keeps e then dprintf ("ENV:" ++ e) else ret tt) ;;
      send_env rest
  end.

Definition route_to_context (pathname : string)
    (argv envp : option (list string)) : M Z :=
  target <- getenv "SANDBOX_ROUTE_TO_CONTEXT" ;;
  match target with
  | None => real_execve pathname argv envp
  | Some target =>
      if negb (socket_ok net) then real_execve pathname argv envp
      else if negb (connect_ok net) then real_execve pathname argv envp
      else
        dprintf "ROUTE" ;;
        dprintf ("CONTEXT:" ++ target) ;;
        dprintf ("CMD:" ++ pathname) ;;
        match argv with Some args => send_args args | None => ret tt end ;;
        match envp with Some env => send_env env | None => ret tt end ;;
        dprintf "END" ;;
        let (n, result) := read net (32 - 1) in
        if n >? 0 then exit (Libc.atoi result)
        else real_execve pathname argv envp
  end.

Definition execve (pathname : string)
    (argv envp : option (list string)) : M Z :=
  route <- should_route ;;
  if route then route_to_context pathname argv envp
  else real_execve pathname argv envp.

(** [snprintf(fullpath, sizeof(fullpath), "%s/%s", dir, file)] with
    [char fullpath[4096]]. *)
Definition fullpath (dir file : string) : string :=
  Libc.snprintf 4096 (dir ++ "/" ++ file).

(** The [while (dir)] loop of [execvp] over the tokens of PATH, down to
    the call made when no directory matches. *)
Fixpoint search_path (dirs : list string) (file : string)
    (argv : option (list string)) : M Z :=
  match dirs with
  | dir :: rest =>
      if access_X_OK (fullpath dir file)
      then env <- get_environ ;;
           route_to_context (fullpath dir file) argv (Some env)
      else search_path rest file argv
  | [] => env <- get_environ ;; route_to_context file argv (Some env)
  end.

Definition execvp (file : string) (argv : option (list string)) : M Z :=
  route <- should_route ;;
  if route then
    path <- getenv "PATH" ;;
    let path := match path with Some p => p | None => "/usr/bin:/bin" end in
    search_path (Libc.strtok path ":") file argv
  else real_execvp file argv.

(** The vector [{"sh", "-c", command, NULL}] that [system] builds: a NULL
    command ends it after ["-c"]. *)
Definition sh_argv (command : option string) : list string :=
  "sh" :: "-c" :: match command with Some c => [c] | None => [] end.

Definition system (command : option string) : M Z :=
  route <- should_route ;;
  if route then
    env <- get_environ ;;
    route_to_context "/bin/sh" (Some (sh_argv command)) (Some env)
  else real_system command.

(** The filtering loop of [popen]:
    [for (i = 0; environ[i] && j < 1023; i++) if (...) filtered_env[j++] = environ[i];]
    from index [i] on, with [j] entries kept so far; the result is what
    the loop appends to [filtered_env]. *)
Fixpoint filter_environ (env : list string) (j : nat) : list string :=
  match env with
  | [] => []
  | e :: rest =>
      if (j <? 1023)%nat
      then if keeps e then e :: filter_environ rest (S j)
           else filter_environ rest j
      else []
  end.

Definition popen (command type : string) : M (option FILE) :=
  route <- should_route ;;
  if route then
    env <- get_environ ;;
    let filtered_env := filter_environ env 0 in
    old_environ <- get_environ ;;
    set_environ filtered_env ;;
    result <- real_popen command type ;;
    set_environ old_environ ;;
    ret result
  else real_popen command type.

End Shim.

(** ** Definitions used by the statements *)

(** A vector that may be NULL, as the list it sends: none when NULL. *)
Definition vector (v : option (list string)) : list string :=
  match v with Some l => l | None => [] end.

(** The request as the protocol describes it: [ROUTE], the context, the
    command, one [ARG:] line per argument, one [ENV:] line per entry the
    filter keeps, [END]. *)
Definition encoded_request (target pathname : string)
    (argv envp : option (list string)) : list string :=
  ["ROUTE"; "CONTEXT:" ++ target; "CMD:" ++ pathname]
  ++ map (append "ARG:") (vector argv)
  ++ map (append "ENV:") (filter keeps (vector envp))
  ++ ["END"].

(** The process once the lines [ls] have gone out on the socket. *)
Definition sent (ls : list string) (s : proc) : proc :=
  mkProc (environ s) (wire s ++ ls).

(** What [route_to_context] does once the request is out: read the
    verdict, exit with it or fall back. *)
Definition await_verdict
    (real_execve : string -> option (list string) -> option (list string) -> M Z)
    (net : transport) (pathname : string)
    (argv envp : option (list string)) : M Z :=
  let (n, result) := read net (32 - 1) in
  if n >? 0 then exit (Libc.atoi result)
  else real_execve pathname argv envp.

(** The directories [execvp] walks: the tokens of PATH, of the default
    when PATH is unset. *)
Definition path_dirs (s : proc) : list string :=
  Libc.strtok
    (match Libc.getenv (environ s) "PATH" with
     | Some p => p
     | None => "/usr/bin:/bin"
     end) ":".

(** The probe [execvp] makes for one directory. *)
Definition probes (access_X_OK : string -> bool) (file dir : string) : bool :=
  access_X_OK (fullpath dir file).

(** Decimal numerals: the text of a list of digits and the number it
    denotes, most significant digit first. *)
Definition digit_char (d : nat) : ascii := ascii_of_nat (48 + d).

Fixpoint digits_string (ds : list nat) : string :=
  match ds with
  | [] => ""
  | d :: rest => String (digit_char d) (digits_string rest)
  end.

Fixpoint digits_number (acc : Z) (ds : list nat) : Z :=
  match ds with
  | [] => acc
  | d :: rest => digits_number (10 * acc + Z.of_nat d) rest
  end.

(** Text that [atoi] reads no digit from: after the white space and one
    optional sign, the next byte is not a digit. *)
Definition numeric (text : string) : bool :=
  match Libc.skip_space text with
  | String "-" (String c _) => Libc.isdigit c
  | String "+" (String c _) => Libc.isdigit c
  | String c _ => Libc.isdigit c
  | EmptyString => false
  end.

Definition INT_MAX : Z := 2 ^ 31 - 1.

(** A C string holds no NUL byte before its end. *)
Fixpoint c_string (s : string) : bool :=
  match s with
  | EmptyString => true
  | String c r => negb (Ascii.eqb c "000") && c_string r
  end.

(** Whether the byte [b] occurs in [s]. *)
Fixpoint has_byte (b : ascii) (s : string) : bool :=
  match s with
  | EmptyString => false
  | String c r => Ascii.eqb c b || has_byte b r
  end.

(** Whether [s] starts with a decimal digit. *)
Definition starts_with_digit (s : string) : bool :=
  match s with
  | String c _ => Libc.isdigit c
  | EmptyString => false
  end.

(** The newline that ends every line on the socket. *)
Definition newline : string := String "010" "".

(** ** A concrete process for the examples

    A libc whose [execve] succeeds for every program, whose [execvp] finds
    nothing, whose [system] returns status 0 and whose [popen] hands out a
    stream numbered by the size of the environment it runs in. *)
Module Demo.

Definition real_execve (pathname : string)
    (argv envp : option (list string)) : M Z :=
  fun s => Replaced pathname argv envp s.

Definition real_execvp (file : string) (argv : option (list string)) : M Z :=
  fun s => Returned (-1) s.

Definition real_system (command : option string) : M Z :=
  fun s => Returned 0 s.

Definition real_popen (command type : string) : M (option nat) :=
  fun s => Returned (Some (List.length (environ s))) s.

(** Only [/bin/ls] and [/usr/bin/env] are executable. *)
Definition access_X_OK (path : string) : bool :=
  String.eqb path "/bin/ls" || String.eqb path "/usr/bin/env".

Definition daemon_up (reply : string) : transport :=
  mkTransport true true (Some reply).
Definition daemon_silent : transport := mkTransport true true (Some "").
Definition daemon_refusing : transport := mkTransport true false None.
Definition no_socket : transport := mkTransport false false None.

Definition plain : proc :=
  mkProc ["HOME=/root"; "PATH=/usr/local/bin::/usr:/bin"] [].

Definition routed : proc :=
  mkProc ["HOME=/root"; "SANDBOX_ROUTE_TO_CONTEXT=contextA";
          "LD_PRELOAD=/lib/router.so"; "PATH=/usr/local/bin::/usr:/bin"] [].

Definition crowded : proc :=
  mkProc ("SANDBOX_ROUTE_TO_CONTEXT=" :: repeat "A=1" 1030) [].

End Demo.

(** ** Strings and the libc functions *)

Lemma substring_whole (n : nat) (s : string) :
  (String.length s <= n)%nat -> substring 0 n s = s.
Proof.
  revert n; induction s as [|c s IH]; intros [|n] H; simpl in *;
    try reflexivity; try lia.
  f_equal; apply IH; lia.
Qed.

Lemma substring_length_le (n : nat) (s : string) :
  (String.length (substring 0 n s) <= n)%nat.
Proof.
  revert n; induction s as [|c s IH]; intros [|n]; simpl; try lia.
  specialize (IH n); lia.
Qed.

Lemma substring_nonempty (n : nat) (s : string) :
  s <> "" -> (0 < String.length (substring 0 (S n) s))%nat.
Proof. destruct s; simpl; [congruence | lia]. Qed.

Lemma snprintf_fits (size : nat) (text : string) :
  (String.length text < size)%nat -> Libc.snprintf size text = text.
Proof. intros H; apply substring_whole; lia. Qed.

Lemma fullpath_fits (dir file : string) :
  (String.length (dir ++ "/" ++ file) < 4096)%nat ->
  fullpath dir file = dir ++ "/" ++ file.
Proof. apply snprintf_fits. Qed.

Lemma strip_prefix_append (p v : string) :
  Libc.strip_prefix p (p ++ v) = Some v.
Proof.
  induction p as [|c p IH]; simpl; [reflexivity|].
  now rewrite Ascii.eqb_refl.
Qed.

Lemma strip_prefix_Some (p s v : string) :
  Libc.strip_prefix p s = Some v -> s = p ++ v.
Proof.
  revert s; induction p as [|c p IH]; intros [|d s]; simpl; intros H;
    try congruence.
  destruct (Ascii.eqb_spec c d) as [->|]; [|discriminate].
  f_equal; now apply IH.
Qed.

Lemma string_append_assoc (a b c : string) : (a ++ b) ++ c = a ++ b ++ c.
Proof. induction a as [|x a IH]; simpl; [reflexivity | now rewrite IH]. Qed.

(** [getenv] finds nothing exactly when no entry has the form
    [name=value]. *)
Lemma getenv_None (env : list string) (name : string) :
  Libc.getenv env name = None <->
  (forall e, In e env -> ~ names name e).
Proof.
  induction env as [|e env IH]; simpl.
  - split; [intros _ e [] | reflexivity].
  - destruct (Libc.strip_prefix (name ++ "=") e) as [v|] eqn:E.
    + split; [discriminate|].
      intros H; exfalso; apply (H e); [now left|].
      exists v. apply strip_prefix_Some in E.
      now rewrite string_append_assoc in E.
    + rewrite IH; split.
      * intros H e' [<-|Hin]; [|now apply H].
        intros [v ->].
        rewrite <- string_append_assoc, strip_prefix_append in E.
        discriminate.
      * intros H e' Hin; apply H; now right.
Qed.

Lemma getenv_present (env : list string) (name value : string) :
  In (name ++ "=" ++ value) env -> Libc.getenv env name <> None.
Proof.
  intros Hin Hnone. rewrite getenv_None in Hnone.
  apply (Hnone _ Hin). now exists value.
Qed.

(** The injection variable is dropped whatever its value. *)
Lemma keeps_injection (value : string) :
  keeps ("LD_PRELOAD=" ++ value) = false.
Proof. reflexivity. Qed.

(** The activation variable is dropped when its value is empty. *)
Lemma keeps_activation_empty : keeps "SANDBOX_ROUTE_TO_CONTEXT=" = false.
Proof. reflexivity. Qed.

Lemma byte_of_zero (c : ascii) : Libc.byte_of c = 0 -> c = "000"%char.
Proof.
  unfold Libc.byte_of. intros H.
  rewrite <- (ascii_N_embedding c).
  replace (N_of_ascii c) with 0%N by lia. reflexivity.
Qed.

(** With a value that is not empty the comparison over 26 bytes reaches
    the first byte of the value, opposite the NUL that ends the 25-byte
    literal, and the entry is kept. *)
Lemma keeps_activation_valued (c : ascii) (value : string) :
  c <> "000"%char ->
  keeps ("SANDBOX_ROUTE_TO_CONTEXT=" ++ String c value) = true.
Proof.
  intros Hc. unfold keeps; simpl.
  destruct (Libc.byte_of c - 0 =? 0) eqn:E; [|reflexivity].
  apply Z.eqb_eq in E. exfalso; apply Hc, byte_of_zero; lia.
Qed.

(** *** [atoi] *)

Lemma digit_char_byte (d : nat) :
  (d < 10)%nat -> Libc.byte_of (digit_char d) = 48 + Z.of_nat d.
Proof.
  intros H. do 10 (destruct d as [|d]; [reflexivity|]). lia.
Qed.

Lemma digit_char_isdigit (d : nat) :
  (d < 10)%nat -> Libc.isdigit (digit_char d) = true.
Proof.
  intros H. do 10 (destruct d as [|d]; [reflexivity|]). lia.
Qed.

Lemma digit_char_plain (d : nat) :
  (d < 10)%nat ->
  Libc.isspace (digit_char d) = false /\
  digit_char d <> "-"%char /\ digit_char d <> "+"%char.
Proof.
  intros H.
  do 10 (destruct d as [|d];
         [split; [reflexivity | split; discriminate]|]).
  lia.
Qed.

Lemma digits_value_digits (ds : list nat) (acc : Z) :
  Forall (fun d => (d < 10)%nat) ds ->
  Libc.digits_value acc (digits_string ds) = digits_number acc ds.
Proof.
  intros H; revert acc; induction H as [|d ds Hd _ IH]; intros acc.
  - reflexivity.
  - cbn [digits_string Libc.digits_value digits_number].
    rewrite digit_char_isdigit, digit_char_byte by assumption.
    rewrite <- IH. f_equal. lia.
Qed.

Lemma digits_number_nonneg (ds : list nat) (acc : Z) :
  0 <= acc -> 0 <= digits_number acc ds.
Proof.
  revert acc; induction ds as [|d ds IH]; intros acc H;
    cbn [digits_number]; [assumption|].
  apply IH. lia.
Qed.

Lemma to_int_small (z : Z) : - 2 ^ 31 <= z <= INT_MAX -> Libc.to_int z = z.
Proof.
  unfold Libc.to_int, INT_MAX. intros H.
  rewrite Z.mod_small by lia. lia.
Qed.

Lemma strtol10_digits (ds : list nat) :
  Forall (fun d => (d < 10)%nat) ds ->
  Libc.strtol10 (digits_string ds)
  = Z.max Libc.LONG_MIN (Z.min Libc.LONG_MAX (digits_number 0 ds)).
Proof.
  intros H. unfold Libc.strtol10. f_equal. f_equal.
  destruct H as [|d ds Hd Hds]; [reflexivity|].
  destruct (digit_char_plain Hd) as (Hsp & Hminus & Hplus).
  cbn [digits_string Libc.skip_space]. rewrite Hsp.
  rewrite <- (digits_value_digits 0 (Forall_cons d Hd Hds)).
  cbn [digits_string].
  destruct (digit_char d) as [b0 b1 b2 b3 b4 b5 b6 b7] eqn:E.
  destruct b0, b1, b2, b3, b4, b5, b6, b7; try reflexivity; congruence.
Qed.

(** A decimal numeral within [int] parses to the number it denotes. *)
Lemma atoi_digits (ds : list nat) :
  Forall (fun d => (d < 10)%nat) ds ->
  digits_number 0 ds <= INT_MAX ->
  Libc.atoi (digits_string ds) = digits_number 0 ds.
Proof.
  intros H Hmax. unfold Libc.atoi. rewrite strtol10_digits by assumption.
  pose proof (digits_number_nonneg ds (acc := 0) ltac:(lia)) as Hpos.
  unfold INT_MAX in Hmax.
  assert (Z.max Libc.LONG_MIN (Z.min Libc.LONG_MAX (digits_number 0 ds))
          = digits_number 0 ds) as ->.
  { unfold Libc.LONG_MIN, Libc.LONG_MAX. lia. }
  apply to_int_small. unfold INT_MAX. lia.
Qed.

Lemma digits_value_not_digit (acc : Z) (s : string) :
  match s with String c _ => Libc.isdigit c = false | EmptyString => True end ->
  Libc.digits_value acc s = acc.
Proof. destruct s as [|c r]; simpl; [reflexivity|]. now intros ->. Qed.

(** Text with no digit where the number should start parses to 0. *)
Lemma atoi_not_numeric (text : string) :
  numeric text = false -> Libc.atoi text = 0.
Proof.
  unfold numeric, Libc.atoi, Libc.strtol10. intros H.
  assert ((match Libc.skip_space text with
           | String "-" r => - Libc.digits_value 0 r
           | String "+" r => Libc.digits_value 0 r
           | t => Libc.digits_value 0 t
           end) = 0) as ->; [|reflexivity].
  destruct (Libc.skip_space text) as [|c r]; [reflexivity|].
  destruct c as [b0 b1 b2 b3 b4 b5 b6 b7].
  destruct b0, b1, b2, b3, b4, b5, b6, b7;
    try (apply digits_value_not_digit; exact H);
    try (destruct r as [|c' r']; [reflexivity|];
         rewrite digits_value_not_digit; [reflexivity | exact H]);
    try discriminate H.
Qed.

(** ** The request encoder *)

Lemma sent_nil (s : proc) : sent [] s = s.
Proof. destruct s; unfold sent; simpl. now rewrite app_nil_r. Qed.

Lemma sent_sent (l1 l2 : list string) (s : proc) :
  sent l2 (sent l1 s) = sent (l1 ++ l2) s.
Proof. unfold sent; simpl. now rewrite app_assoc. Qed.

Lemma dprintf_sent (line : string) (s : proc) :
  dprintf line s = Returned tt (sent [line] s).
Proof. reflexivity. Qed.

Lemma send_args_sent (args : list string) (s : proc) :
  send_args args s = Returned tt (sent (map (append "ARG:") args) s).
Proof.
  revert s; induction args as [|a args IH]; intros s.
  - simpl. unfold ret. now rewrite sent_nil.
  - cbn [send_args map]. unfold bind. rewrite dprintf_sent, IH, sent_sent.
    reflexivity.
Qed.

Lemma send_env_sent (env : list string) (s : proc) :
  send_env env s =
  Returned tt (sent (map (append "ENV:") (filter keeps env)) s).
Proof.
  revert s; induction env as [|e env IH]; intros s.
  - simpl. unfold ret. now rewrite sent_nil.
  - cbn [send_env filter]. unfold bind.
    destruct (keeps e).
    + rewrite dprintf_sent, IH, sent_sent. reflexivity.
    + unfold ret. apply IH.
Qed.

(** ** The transport client and the adapters *)

Section ShimFacts.

Variable FILE : Type.
Variable real_execve :
  string -> option (list string) -> option (list string) -> M Z.
Variable real_execvp : string -> option (list string) -> M Z.
Variable real_system : option string -> M Z.
Variable real_popen : string -> string -> M (option FILE).
Variable access_X_OK : string -> bool.
Variable net : transport.

Lemma should_route_eq (s : proc) :
  should_route s =
  Returned (match Libc.getenv (environ s) ACTIVATION with
            | Some _ => true | None => false end) s.
Proof. reflexivity. Qed.

Lemma route_unset (p : string) (argv envp : option (list string)) (s : proc) :
  Libc.getenv (environ s) ACTIVATION = None ->
  route_to_context real_execve net p argv envp s = real_execve p argv envp s.
Proof.
  intros H. unfold route_to_context, bind, getenv.
  unfold ACTIVATION in H. now rewrite H.
Qed.

Lemma route_no_socket (p : string) (argv envp : option (list string))
    (s : proc) :
  socket_ok net = false ->
  route_to_context real_execve net p argv envp s = real_execve p argv envp s.
Proof.
  intros H. unfold route_to_context, bind, getenv. rewrite H.
  now destruct (Libc.getenv _ _).
Qed.

Lemma route_no_connect (p : string) (argv envp : option (list string))
    (s : proc) :
  connect_ok net = false ->
  route_to_context real_execve net p argv envp s = real_execve p argv envp s.
Proof.
  intros H. unfold route_to_context, bind, getenv. rewrite H.
  destruct (Libc.getenv _ _); [|reflexivity].
  now destruct (socket_ok net).
Qed.

(** With the variable set and the daemon connected, the whole request
    goes out, then the verdict is awaited. *)
Lemma route_connected (target p : string) (argv envp : option (list string))
    (s : proc) :
  Libc.getenv (environ s) ACTIVATION = Some target ->
  socket_ok net = true -> connect_ok net = true ->
  route_to_context real_execve net p argv envp s =
  await_verdict real_execve net p argv envp
    (sent (encoded_request target p argv envp) s).
Proof.
  intros Ht Hs Hc. unfold route_to_context, bind at 1, getenv.
  unfold ACTIVATION in Ht. rewrite Ht, Hs, Hc. cbn [negb].
  unfold bind. rewrite !dprintf_sent, !sent_sent.
  assert (forall s0, match argv with
                     | Some args => send_args args
                     | None => ret tt
                     end s0
                     = Returned tt (sent (map (append "ARG:") (vector argv)) s0))
    as Hargs.
  { intros s0. destruct argv; simpl; [apply send_args_sent|].
    unfold ret. now rewrite sent_nil. }
  assert (forall s0, match envp with
                     | Some env => send_env env
                     | None => ret tt
                     end s0
                     = Returned tt
                         (sent (map (append "ENV:") (filter keeps (vector envp))) s0))
    as Henv.
  { intros s0. destruct envp; simpl; [apply send_env_sent|].
    unfold ret. now rewrite sent_nil. }
  rewrite Hargs, sent_sent, Henv, sent_sent, dprintf_sent, sent_sent.
  unfold await_verdict, encoded_request.
  repeat rewrite <- app_assoc. reflexivity.
Qed.

Lemma await_reply (p : string) (argv envp : option (list string))
    (bytes : string) (s : proc) :
  response net = Some bytes -> bytes <> "" ->
  await_verdict real_execve net p argv envp s
  = Exited (Libc.atoi (substring 0 31 bytes)) s.
Proof.
  intros Hr Hb. unfold await_verdict, read. rewrite Hr.
  change (32 - 1)%nat with 31%nat.
  pose proof (substring_nonempty 30 Hb) as Hlen.
  destruct (Z.of_nat (String.length (substring 0 31 bytes)) >? 0) eqn:E;
    [reflexivity | lia].
Qed.

Lemma await_nothing (p : string) (argv envp : option (list string))
    (s : proc) :
  response net = Some "" \/ response net = None ->
  await_verdict real_execve net p argv envp s = real_execve p argv envp s.
Proof. unfold await_verdict, read. now intros [-> | ->]. Qed.

(** The PATH loop ends in the call for the first directory whose probe
    passes, or for the file as given. *)
Lemma search_path_find (dirs : list string) (file : string)
    (argv : option (list string)) (s : proc) :
  search_path real_execve access_X_OK net dirs file argv s =
  route_to_context real_execve net
    (match find (probes access_X_OK file) dirs with
     | Some dir => fullpath dir file
     | None => file
     end) argv (Some (environ s)) s.
Proof.
  induction dirs as [|dir dirs IH]; [reflexivity|].
  cbn [search_path find]. unfold probes at 1.
  destruct (access_X_OK (fullpath dir file)); [reflexivity | exact IH].
Qed.

Lemma execvp_routed (target file : string) (argv : option (list string))
    (s : proc) :
  Libc.getenv (environ s) ACTIVATION = Some target ->
  execvp real_execve real_execvp access_X_OK net file argv s =
  search_path real_execve access_X_OK net (path_dirs s) file argv s.
Proof.
  intros Ht. unfold execvp, bind at 1. rewrite should_route_eq, Ht.
  reflexivity.
Qed.

Lemma find_first (A : Type) (f : A -> bool) (before after : list A) (x : A) :
  Forall (fun y => f y = false) before -> f x = true ->
  find f (before ++ x :: after) = Some x.
Proof.
  induction 1 as [|y before Hy _ IH]; intros Hx; simpl.
  - now rewrite Hx.
  - rewrite Hy. now apply IH.
Qed.

Lemma find_only (A : Type) (f : A -> bool) (l : list A) (x : A) :
  In x l -> f x = true -> (forall y, In y l -> f y = true -> y = x) ->
  find f l = Some x.
Proof.
  induction l as [|y l IH]; intros Hin Hx Huniq; [destruct Hin|].
  simpl. destruct (f y) eqn:Hy.
  - f_equal. apply Huniq; [now left | assumption].
  - apply IH.
    + destruct Hin as [->|Hin]; [congruence | assumption].
    + assumption.
    + intros z Hz; apply Huniq; now right.
Qed.

Lemma find_none_iff (A : Type) (f : A -> bool) (l : list A) :
  find f l = None <-> Forall (fun y => f y = false) l.
Proof.
  induction l as [|y l IH]; simpl.
  - split; [constructor | reflexivity].
  - destruct (f y) eqn:Hy.
    + split; [discriminate|]. intros H; inversion H; congruence.
    + rewrite IH. split; [now constructor | now inversion 1].
Qed.

End ShimFacts.

(** The half of the filters that works: no entry naming [LD_PRELOAD]
    passes the test, so none is sent as an [ENV:] line and none enters the
    table of a routed [popen]. *)
Lemma keeps_not_injection (e : string) :
  keeps e = true -> ~ names INJECTION e.
Proof.
  intros H [value ->]. unfold INJECTION in H.
  change ("LD_PRELOAD" ++ "=" ++ value) with ("LD_PRELOAD=" ++ value) in H.
  rewrite keeps_injection in H. discriminate.
Qed.

Lemma injection_never_sent (envp : list string) :
  Forall (fun e => ~ names INJECTION e) (filter keeps envp).
Proof.
  apply Forall_forall. intros e He. apply filter_In in He.
  now apply keeps_not_injection.
Qed.

Lemma injection_never_installed (env : list string) (j : nat) :
  Forall (fun e => ~ names INJECTION e) (filter_environ env j).
Proof.
  revert j; induction env as [|e env IH]; intros j;
    cbn [filter_environ]; [constructor|].
  destruct (j <? 1023)%nat; [|constructor].
  destruct (keeps e) eqn:He; [|apply IH].
  constructor; [now apply keeps_not_injection | apply IH].
Qed.

(** The filtering loop of [popen] keeps the first entries that pass the
    test, as many as the table still has room for. *)
Lemma filter_environ_from (env : list string) (j : nat) :
  (j <= 1023)%nat ->
  filter_environ env j = firstn (1023 - j) (filter keeps env).
Proof.
  revert j; induction env as [|e env IH]; intros j Hj.
  - cbn [filter_environ filter]. now rewrite firstn_nil.
  - cbn [filter_environ filter].
    destruct (Nat.ltb_spec j 1023) as [Hlt|Hge].
    + destruct (keeps e).
      * replace (1023 - j)%nat with (S (1023 - S j)) by lia.
        rewrite firstn_cons, IH by lia. reflexivity.
      * apply IH; lia.
    + replace (1023 - j)%nat with 0%nat by lia. reflexivity.
Qed.

Lemma popen_routed (FILE : Type) (real_popen : string -> string -> M (option FILE))
    (target command type : string) (s : proc) :
  Libc.getenv (environ s) ACTIVATION = Some target ->
  popen real_popen command type s
  = (result <- real_popen command type ;;
     set_environ (environ s) ;;
     ret result) (mkProc (filter_environ (environ s) 0) (wire s)).
Proof.
  intros Ht. unfold popen, bind at 1. rewrite should_route_eq, Ht.
  reflexivity.
Qed.

(** ** Properties of the shim *)

Section Claims.

Variable FILE : Type.
Variable real_execve :
  string -> option (list string) -> option (list string) -> M Z.
Variable real_execvp : string -> option (list string) -> M Z.
Variable real_system : option string -> M Z.
Variable real_popen : string -> string -> M (option FILE).
Variable access_X_OK : string -> bool.
Variable net : transport.

(** C6.  With the activation variable absent from the environment (no
    entry of the form [SANDBOX_ROUTE_TO_CONTEXT=value]), [execve],
    [execvp], [system] and [popen] are each the real primitive called with
    the caller's arguments in the unchanged process: same return value,
    same replacement of the process, same error.  The policy itself always
    returns, changes nothing, and answers by the presence of the variable
    alone: false exactly when it is absent. *)
Theorem unset_is_transparent (s : proc) :
  (exists route, should_route s = Returned route s /\
     (route = false <->
      forall e, In e (environ s) -> ~ names ACTIVATION e)) /\
  ((forall e, In e (environ s) -> ~ names ACTIVATION e) ->
   should_route s = Returned false s /\
   (forall pathname argv envp,
      execve real_execve net pathname argv envp s
      = real_execve pathname argv envp s) /\
   (forall file argv,
      execvp real_execve real_execvp access_X_OK net file argv s
      = real_execvp file argv s) /\
   (forall command,
      system real_execve real_system net command s = real_system command s) /\
   (forall command type,
      popen real_popen command type s = real_popen command type s)).
Proof.
  split.
  - eexists; split; [apply should_route_eq|].
    rewrite <- getenv_None.
    destruct (Libc.getenv (environ s) ACTIVATION); split; congruence.
  - intros Habsent. apply getenv_None in Habsent.
    assert (should_route s = Returned false s) as Hroute
      by (rewrite should_route_eq, Habsent; reflexivity).
    split; [exact Hroute|].
    repeat split; intros; unfold execve, execvp, system, popen, bind;
      rewrite Hroute; reflexivity.
Qed.

(** C7.  On every routing attempt that reaches the daemon the lines
    written are, in this order: [ROUTE], [CONTEXT:] with the target,
    [CMD:] with the path, one [ARG:] line per argument from [argv[0]] on in
    the caller's order, one [ENV:] line per environment entry the filter
    keeps in the original order, and [END]; the verdict is awaited after
    them.  With no argument and no surviving entry (empty or NULL vectors)
    the request is the four remaining lines. *)
Theorem request_line_order (s : proc) (target pathname : string)
    (argv envp : option (list string)) :
  Libc.getenv (environ s) ACTIVATION = Some target ->
  socket_ok net = true -> connect_ok net = true ->
  route_to_context real_execve net pathname argv envp s
  = await_verdict real_execve net pathname argv envp
      (sent (["ROUTE"; "CONTEXT:" ++ target; "CMD:" ++ pathname]
             ++ map (append "ARG:") (vector argv)
             ++ map (append "ENV:") (filter keeps (vector envp))
             ++ ["END"]) s) /\
  (vector argv = [] -> filter keeps (vector envp) = [] ->
   route_to_context real_execve net pathname argv envp s
   = await_verdict real_execve net pathname argv envp
       (sent ["ROUTE"; "CONTEXT:" ++ target; "CMD:" ++ pathname; "END"] s)).
Proof.
  intros Ht Hs Hc.
  pose proof (route_connected real_execve net pathname argv envp s Ht Hs Hc) as H.
  unfold encoded_request in H. split; [exact H|].
  intros Hargs Henv. rewrite H, Hargs, Henv. reflexivity.
Qed.

(** C3.  Once the request is out, a read of at least one byte makes the
    process exit with [atoi] of the bytes read (at most 31): control does
    not return and no real primitive runs.  A read of no byte, or a failed
    read, falls back to the real [execve] with the arguments of the call.
    [atoi] reads base 10: a numeral within [int] gives its number, and
    text with no digit where the number should start gives 0. *)
Theorem verdict_exits_or_falls_back (s : proc) (target pathname : string)
    (argv envp : option (list string)) :
  Libc.getenv (environ s) ACTIVATION = Some target ->
  socket_ok net = true -> connect_ok net = true ->
  let s' := sent (encoded_request target pathname argv envp) s in
  (forall bytes, response net = Some bytes -> bytes <> "" ->
     route_to_context real_execve net pathname argv envp s
     = Exited (Libc.atoi (substring 0 31 bytes)) s') /\
  (response net = Some "" \/ response net = None ->
     route_to_context real_execve net pathname argv envp s
     = real_execve pathname argv envp s') /\
  (forall ds, Forall (fun d => (d < 10)%nat) ds ->
     digits_number 0 ds <= INT_MAX ->
     Libc.atoi (digits_string ds) = digits_number 0 ds) /\
  (forall text, numeric text = false -> Libc.atoi text = 0).
Proof.
  intros Ht Hs Hc s'. repeat split.
  - intros bytes Hr Hb.
    rewrite (route_connected real_execve net pathname argv envp s Ht Hs Hc).
    now apply await_reply.
  - intros Hr.
    rewrite (route_connected real_execve net pathname argv envp s Ht Hs Hc).
    now apply await_nothing.
  - apply atoi_digits.
  - apply atoi_not_numeric.
Qed.

(** C4.  Under routing, [system(command)] is the routing of [/bin/sh] with
    the vector [sh], [-c], [command] and the ambient environment.  With the
    activation variable set to [contextA], the command [echo hi] and a
    daemon that answers [0], the request holds [CONTEXT:contextA],
    [CMD:/bin/sh], [ARG:sh], [ARG:-c], [ARG:echo hi] and the process exits
    with status 0. *)
Theorem system_wraps_shell (s : proc) :
  (forall target command,
     Libc.getenv (environ s) ACTIVATION = Some target ->
     system real_execve real_system net (Some command) s
     = route_to_context real_execve net "/bin/sh"
         (Some ["sh"; "-c"; command]) (Some (environ s)) s) /\
  (Libc.getenv (environ s) ACTIVATION = Some "contextA" ->
   socket_ok net = true -> connect_ok net = true -> response net = Some "0" ->
   system real_execve real_system net (Some "echo hi") s
   = Exited 0
       (sent (["ROUTE"; "CONTEXT:contextA"; "CMD:/bin/sh";
               "ARG:sh"; "ARG:-c"; "ARG:echo hi"]
              ++ map (append "ENV:") (filter keeps (environ s))
              ++ ["END"]) s)).
Proof.
  assert (forall target command,
            Libc.getenv (environ s) ACTIVATION = Some target ->
            system real_execve real_system net (Some command) s
            = route_to_context real_execve net "/bin/sh"
                (Some ["sh"; "-c"; command]) (Some (environ s)) s) as Hwrap.
  { intros target command Ht. unfold system, bind at 1.
    rewrite should_route_eq, Ht. reflexivity. }
  split; [exact Hwrap|].
  intros Ht Hs Hc Hr. rewrite (Hwrap _ _ Ht).
  rewrite (route_connected real_execve net _ _ _ s Ht Hs Hc).
  rewrite (await_reply real_execve net _ _ _ _ Hr) by discriminate.
  reflexivity.
Qed.

(** C5.  Under routing [execvp] walks the directories of PATH in order and
    routes under the path built from the first one whose probe passes
    [access(..., X_OK)]: that path is the pathname handed to the routing,
    and the [CMD:] line carries it.  So it is for a file executable in
    exactly one directory of PATH.  When no probe passes, the routing is
    attempted with the file as given.  A routing that cannot complete
    falls back to the real [execve] under the same pathname.  The path
    built is [dir/file] whenever that fits the 4096-byte buffer. *)
Theorem execvp_routes_first_match (s : proc) (target file : string)
    (argv : option (list string)) :
  Libc.getenv (environ s) ACTIVATION = Some target ->
  let routes pathname :=
    execvp real_execve real_execvp access_X_OK net file argv s
    = route_to_context real_execve net pathname argv (Some (environ s)) s in
  (forall before dir after,
     path_dirs s = (before ++ dir :: after)%list ->
     Forall (fun d => access_X_OK (fullpath d file) = false) before ->
     access_X_OK (fullpath dir file) = true ->
     routes (fullpath dir file)) /\
  (forall dir,
     In dir (path_dirs s) -> access_X_OK (fullpath dir file) = true ->
     (forall d, In d (path_dirs s) -> access_X_OK (fullpath d file) = true ->
                d = dir) ->
     routes (fullpath dir file)) /\
  (Forall (fun d => access_X_OK (fullpath d file) = false) (path_dirs s) ->
   routes file) /\
  (forall pathname,
     socket_ok net = true -> connect_ok net = true ->
     route_to_context real_execve net pathname argv (Some (environ s)) s
     = await_verdict real_execve net pathname argv (Some (environ s))
         (sent ("ROUTE" :: ("CONTEXT:" ++ target) :: ("CMD:" ++ pathname)
                :: map (append "ARG:") (vector argv)
                ++ map (append "ENV:") (filter keeps (environ s))
                ++ ["END"]) s)) /\
  (forall pathname,
     socket_ok net = false \/ connect_ok net = false ->
     route_to_context real_execve net pathname argv (Some (environ s)) s
     = real_execve pathname argv (Some (environ s)) s) /\
  (forall pathname s',
     response net = Some "" \/ response net = None ->
     await_verdict real_execve net pathname argv (Some (environ s)) s'
     = real_execve pathname argv (Some (environ s)) s') /\
  (forall dir,
     (String.length (dir ++ "/" ++ file) < 4096)%nat ->
     fullpath dir file = dir ++ "/" ++ file).
Proof.
  intros Ht routes.
  assert (forall o,
            find (probes access_X_OK file) (path_dirs s) = o ->
            routes match o with Some d => fullpath d file | None => file end)
    as Hfind.
  { intros o <-. unfold routes.
    rewrite (execvp_routed real_execve real_execvp access_X_OK net file argv s Ht).
    apply search_path_find. }
  repeat split.
  - intros before dir after Hdirs Hbefore Hdir.
    apply (Hfind (Some dir)). rewrite Hdirs. now apply find_first.
  - intros dir Hin Hdir Honly.
    apply (Hfind (Some dir)). now apply find_only.
  - intros Hnone. apply (Hfind None). now apply find_none_iff.
  - intros pathname Hs Hc.
    apply (route_connected real_execve net pathname argv (Some (environ s)) s
             Ht Hs Hc).
  - intros pathname [H|H];
      [now apply route_no_socket | now apply route_no_connect].
  - intros pathname s' H. now apply await_nothing.
  - intros dir. apply fullpath_fits.
Qed.

(** C10.  Under routing [execvp] searches PATH for every file argument,
    with or without a directory separator in it: each directory [dir] of
    PATH is probed, in order, under the path built from [dir] and the file
    ([dir/file]); the first probe that passes decides the pathname of the
    routing, and only when none passes is the file routed as given. *)
Theorem execvp_searches_every_file (s : proc) (target file : string)
    (argv : option (list string)) :
  Libc.getenv (environ s) ACTIVATION = Some target ->
  execvp real_execve real_execvp access_X_OK net file argv s
  = route_to_context real_execve net
      (match find (fun dir => access_X_OK (fullpath dir file)) (path_dirs s) with
       | Some dir => fullpath dir file
       | None => file
       end) argv (Some (environ s)) s /\
  (forall dir, (String.length (dir ++ "/" ++ file) < 4096)%nat ->
               fullpath dir file = dir ++ "/" ++ file).
Proof.
  intros Ht. split.
  - rewrite (execvp_routed real_execve real_execvp access_X_OK net file argv s Ht).
    apply search_path_find.
  - intros dir. apply fullpath_fits.
Qed.

(** C8.  Under routing [popen] runs the real [popen] with [environ]
    pointing at the filtered table, and once the real [popen] has returned,
    with a stream or with NULL, [environ] is the table it was before the
    call, entry for entry; [popen] returns what the real one returned. *)
Theorem popen_restores_environ (s : proc) (target command type : string)
    (result : option FILE) (after : proc) :
  Libc.getenv (environ s) ACTIVATION = Some target ->
  real_popen command type (mkProc (filter_environ (environ s) 0) (wire s))
  = Returned result after ->
  popen real_popen command type s
  = Returned result (mkProc (environ s) (wire after)).
Proof.
  intros Ht Hreal. rewrite (popen_routed real_popen command type s Ht).
  unfold bind. rewrite Hreal. reflexivity.
Qed.

(** C9.  Under routing the table [popen] hands to the real [popen] is the
    first 1023 of the ambient entries that pass the filter, in order: at
    most 1023 entries, and the surviving entries after the 1023rd are
    left out. *)
Theorem popen_filter_capacity (s : proc) (target command type : string) :
  Libc.getenv (environ s) ACTIVATION = Some target ->
  let filtered_env := filter_environ (environ s) 0 in
  popen real_popen command type s
  = (result <- real_popen command type ;;
     set_environ (environ s) ;;
     ret result) (mkProc filtered_env (wire s)) /\
  filtered_env = firstn 1023 (filter keeps (environ s)) /\
  (List.length filtered_env <= 1023)%nat /\
  filter keeps (environ s)
  = (filtered_env ++ skipn 1023 (filter keeps (environ s)))%list.
Proof.
  intros Ht filtered_env.
  assert (filtered_env = firstn 1023 (filter keeps (environ s))) as Hfirst.
  { unfold filtered_env. rewrite filter_environ_from by lia.
    f_equal. }
  split; [exact (popen_routed real_popen command type s Ht)|].
  split; [exact Hfirst|]. rewrite Hfirst. split.
  - apply firstn_le_length.
  - symmetry. apply firstn_skipn.
Qed.

End Claims.

(** ** The shim on the concrete process *)

(** When the routing cannot complete, [system] ends in the real [execve]
    of the shell, whatever the real primitives are. *)
Lemma system_unroutable
    (real_execve : string -> option (list string) -> option (list string) -> M Z)
    (real_system : option string -> M Z) (net : transport)
    (target : string) (command : option string) (s : proc) :
  Libc.getenv (environ s) ACTIVATION = Some target ->
  socket_ok net = false \/ connect_ok net = false ->
  system real_execve real_system net command s
  = real_execve "/bin/sh" (Some (sh_argv command)) (Some (environ s)) s.
Proof.
  intros Ht Hnet. unfold system, bind at 1. rewrite should_route_eq, Ht.
  unfold bind, get_environ.
  destruct Hnet; [now apply route_no_socket | now apply route_no_connect].
Qed.

(** When the routing cannot complete, [execve] is the real [execve] on
    the arguments of the call. *)
Lemma execve_unroutable
    (real_execve : string -> option (list string) -> option (list string) -> M Z)
    (net : transport) (pathname : string) (argv envp : option (list string))
    (s : proc) :
  socket_ok net = false \/ connect_ok net = false ->
  execve real_execve net pathname argv envp s
  = real_execve pathname argv envp s.
Proof.
  intros Hnet. unfold execve, bind. rewrite should_route_eq.
  destruct (Libc.getenv _ _); [|reflexivity].
  destruct Hnet; [now apply route_no_socket | now apply route_no_connect].
Qed.

(** C1.  The filters are meant to keep the activation variable and the
    injection variable from the daemon and from the environment of a routed
    [popen].  [LD_PRELOAD] is dropped, but an entry
    [SANDBOX_ROUTE_TO_CONTEXT=contextA] is compared over 26 bytes with a
    25-byte literal and passes both filters: it goes out as an [ENV:] line
    and it stays in the table installed for [popen]. *)
Theorem activation_entry_is_forwarded :
  let envp := ["HOME=/root"; "SANDBOX_ROUTE_TO_CONTEXT=contextA";
               "LD_PRELOAD=/lib/router.so"] in
  let s := mkProc envp [] in
  execve Demo.real_execve (Demo.daemon_up "0") "/bin/ls" (Some ["ls"])
    (Some envp) s
  = Exited 0
      (mkProc envp
         ["ROUTE"; "CONTEXT:contextA"; "CMD:/bin/ls"; "ARG:ls";
          "ENV:HOME=/root"; "ENV:SANDBOX_ROUTE_TO_CONTEXT=contextA"; "END"]) /\
  filter_environ envp 0 = ["HOME=/root"; "SANDBOX_ROUTE_TO_CONTEXT=contextA"] /\
  popen Demo.real_popen "ls" "r" s = Returned (Some 2%nat) s.
Proof. repeat split. Qed.

(** C2.  With the activation variable set and no socket to be had, no
    daemon accepting or no answer, [system("echo hi")] does not behave as
    the real [system] does: it ends in the real [execve] of [/bin/sh],
    which replaces the calling process where the real [system] returns a
    status to its caller. *)
Theorem system_fallback_replaces_process :
  let shell := Replaced "/bin/sh" (Some ["sh"; "-c"; "echo hi"])
                 (Some (environ Demo.routed)) in
  system Demo.real_execve Demo.real_system Demo.no_socket
    (Some "echo hi") Demo.routed = shell Demo.routed /\
  system Demo.real_execve Demo.real_system Demo.daemon_refusing
    (Some "echo hi") Demo.routed = shell Demo.routed /\
  (exists s', system Demo.real_execve Demo.real_system Demo.daemon_silent
                (Some "echo hi") Demo.routed = shell s') /\
  Demo.real_system (Some "echo hi") Demo.routed = Returned 0 Demo.routed /\
  system Demo.real_execve Demo.real_system Demo.no_socket
    (Some "echo hi") Demo.plain = Returned 0 Demo.plain.
Proof. repeat split. eexists. reflexivity. Qed.

(** ** The properties at concrete calls *)

Lemma unset_is_transparent_witness :
  (forall e, In e (environ Demo.plain) -> ~ names ACTIVATION e) /\
  execve Demo.real_execve (Demo.daemon_up "0") "/bin/ls" (Some ["ls"]) None
    Demo.plain
  = Replaced "/bin/ls" (Some ["ls"]) None Demo.plain /\
  execvp Demo.real_execve Demo.real_execvp Demo.access_X_OK
    (Demo.daemon_up "0") "ls" (Some ["ls"]) Demo.plain
  = Returned (-1) Demo.plain /\
  system Demo.real_execve Demo.real_system (Demo.daemon_up "0")
    (Some "echo hi") Demo.plain
  = Returned 0 Demo.plain /\
  popen Demo.real_popen "ls" "r" Demo.plain
  = Returned (Some 2%nat) Demo.plain.
Proof.
  assert (forall e, In e (environ Demo.plain) -> ~ names ACTIVATION e)
    as Habsent by (apply getenv_None; reflexivity).
  split; [exact Habsent|].
  destruct (@unset_is_transparent nat Demo.real_execve Demo.real_execvp
              Demo.real_system Demo.real_popen Demo.access_X_OK
              (Demo.daemon_up "0") Demo.plain) as [_ H].
  destruct (H Habsent) as (_ & Hexecve & Hexecvp & Hsystem & Hpopen).
  rewrite Hexecve, Hexecvp, Hsystem, Hpopen. repeat split.
Defined.

Lemma request_line_order_witness :
  Libc.getenv (environ Demo.routed) ACTIVATION = Some "contextA" /\
  socket_ok (Demo.daemon_up "7") = true /\
  connect_ok (Demo.daemon_up "7") = true /\
  route_to_context Demo.real_execve (Demo.daemon_up "7") "/bin/ls"
    (Some ["ls"; "-l"; "/tmp"]) (Some ["HOME=/root"; "LD_PRELOAD=x"; "TERM=vt100"])
    Demo.routed
  = Exited 7
      (mkProc (environ Demo.routed)
         ["ROUTE"; "CONTEXT:contextA"; "CMD:/bin/ls";
          "ARG:ls"; "ARG:-l"; "ARG:/tmp";
          "ENV:HOME=/root"; "ENV:TERM=vt100"; "END"]).
Proof.
  repeat (split; [reflexivity|]).
  rewrite (proj1 (@request_line_order Demo.real_execve (Demo.daemon_up "7")
                    Demo.routed "contextA" "/bin/ls"
                    (Some ["ls"; "-l"; "/tmp"])
                    (Some ["HOME=/root"; "LD_PRELOAD=x"; "TERM=vt100"])
                    eq_refl eq_refl eq_refl)).
  reflexivity.
Defined.

Lemma verdict_exits_or_falls_back_witness :
  Libc.getenv (environ Demo.routed) ACTIVATION = Some "contextA" /\
  socket_ok (Demo.daemon_up "42") = true /\
  connect_ok (Demo.daemon_up "42") = true /\
  route_to_context Demo.real_execve (Demo.daemon_up "42") "/bin/ls"
    (Some ["ls"]) None Demo.routed
  = Exited 42
      (mkProc (environ Demo.routed)
         ["ROUTE"; "CONTEXT:contextA"; "CMD:/bin/ls"; "ARG:ls"; "END"]).
Proof.
  repeat (split; [reflexivity|]).
  rewrite (proj1 (@verdict_exits_or_falls_back Demo.real_execve
                    (Demo.daemon_up "42") Demo.routed "contextA" "/bin/ls"
                    (Some ["ls"]) None eq_refl eq_refl eq_refl)
             "42" eq_refl ltac:(discriminate)).
  reflexivity.
Defined.

Lemma system_wraps_shell_witness :
  Libc.getenv (environ Demo.routed) ACTIVATION = Some "contextA" /\
  socket_ok (Demo.daemon_up "0") = true /\
  connect_ok (Demo.daemon_up "0") = true /\
  response (Demo.daemon_up "0") = Some "0" /\
  exists s',
    system Demo.real_execve Demo.real_system (Demo.daemon_up "0")
      (Some "echo hi") Demo.routed = Exited 0 s' /\
    firstn 6 (wire s')
    = ["ROUTE"; "CONTEXT:contextA"; "CMD:/bin/sh";
       "ARG:sh"; "ARG:-c"; "ARG:echo hi"].
Proof.
  repeat (split; [reflexivity|]).
  eexists. split.
  - apply (proj2 (@system_wraps_shell Demo.real_execve Demo.real_system
                    (Demo.daemon_up "0") Demo.routed)
             eq_refl eq_refl eq_refl eq_refl).
  - reflexivity.
Defined.

Lemma execvp_routes_first_match_witness :
  Libc.getenv (environ Demo.routed) ACTIVATION = Some "contextA" /\
  path_dirs Demo.routed = ["/usr/local/bin"; "/usr"; "/bin"] /\
  execvp Demo.real_execve Demo.real_execvp Demo.access_X_OK
    (Demo.daemon_up "0") "ls" (Some ["ls"]) Demo.routed
  = route_to_context Demo.real_execve (Demo.daemon_up "0") "/bin/ls"
      (Some ["ls"]) (Some (environ Demo.routed)) Demo.routed.
Proof.
  repeat (split; [reflexivity|]).
  apply (proj1 (@execvp_routes_first_match Demo.real_execve Demo.real_execvp
                  Demo.access_X_OK (Demo.daemon_up "0") Demo.routed
                  "contextA" "ls" (Some ["ls"]) eq_refl)
           ["/usr/local/bin"; "/usr"] "/bin" []).
  - reflexivity.
  - repeat constructor.
  - reflexivity.
Defined.

Lemma execvp_searches_every_file_witness :
  Libc.getenv (environ Demo.routed) ACTIVATION = Some "contextA" /\
  execvp Demo.real_execve Demo.real_execvp Demo.access_X_OK
    (Demo.daemon_up "0") "bin/env" (Some ["env"]) Demo.routed
  = route_to_context Demo.real_execve (Demo.daemon_up "0") "/usr/bin/env"
      (Some ["env"]) (Some (environ Demo.routed)) Demo.routed.
Proof.
  split; [reflexivity|].
  apply (proj1 (@execvp_searches_every_file Demo.real_execve Demo.real_execvp
                  Demo.access_X_OK (Demo.daemon_up "0") Demo.routed
                  "contextA" "bin/env" (Some ["env"]) eq_refl)).
Defined.

Lemma popen_restores_environ_witness :
  Libc.getenv (environ Demo.routed) ACTIVATION = Some "contextA" /\
  Demo.real_popen "ls" "r"
    (mkProc (filter_environ (environ Demo.routed) 0) (wire Demo.routed))
  = Returned (Some 3%nat)
      (mkProc ["HOME=/root"; "SANDBOX_ROUTE_TO_CONTEXT=contextA";
               "PATH=/usr/local/bin::/usr:/bin"] []) /\
  popen Demo.real_popen "ls" "r" Demo.routed
  = Returned (Some 3%nat) Demo.routed.
Proof.
  repeat (split; [reflexivity|]).
  apply (@popen_restores_environ nat Demo.real_popen Demo.routed "contextA"
           "ls" "r" (Some 3%nat)
           (mkProc ["HOME=/root"; "SANDBOX_ROUTE_TO_CONTEXT=contextA";
                    "PATH=/usr/local/bin::/usr:/bin"] [])
           eq_refl eq_refl).
Defined.

Lemma popen_filter_capacity_witness :
  Libc.getenv (environ Demo.crowded) ACTIVATION = Some "" /\
  List.length (filter keeps (environ Demo.crowded)) = 1030%nat /\
  List.length (filter_environ (environ Demo.crowded) 0) = 1023%nat /\
  (List.length (filter_environ (environ Demo.crowded) 0) <= 1023)%nat.
Proof.
  split; [reflexivity|].
  split; [vm_compute; reflexivity|].
  split; [vm_compute; reflexivity|].
  apply (@popen_filter_capacity nat Demo.real_popen Demo.crowded "" "ls" "r"
           eq_refl).
Defined.

(** The bytes of the request of the scenario, line by line. *)
Example scenario_bytes :
  wire_bytes
    (sent (encoded_request "contextA" "/bin/sh"
             (Some ["sh"; "-c"; "echo hi"]) (Some ["HOME=/root"]))
       (mkProc ["HOME=/root"] []))
  = "ROUTE
CONTEXT:contextA
CMD:/bin/sh
ARG:sh
ARG:-c
ARG:echo hi
ENV:HOME=/root
END
".
Proof. reflexivity. Qed.

(** ** Further properties of the filters *)

Lemma byte_of_inj (a b : ascii) : Libc.byte_of a = Libc.byte_of b -> a = b.
Proof.
  unfold Libc.byte_of. intros H. apply N2Z.inj in H.
  rewrite <- (ascii_N_embedding a), <- (ascii_N_embedding b), H.
  reflexivity.
Qed.

Lemma byte_of_diff (a b : ascii) :
  Ascii.eqb a b = false -> Libc.byte_of a - Libc.byte_of b <> 0.
Proof.
  intros H E. apply Ascii.eqb_neq in H. apply H, byte_of_inj. lia.
Qed.

Lemma c_string_head (c : ascii) (r : string) :
  c_string (String c r) = true -> Libc.byte_of c <> 0 /\ c_string r = true.
Proof.
  cbn [c_string]. intros H. apply andb_true_iff in H as [Hc Hr].
  split; [|exact Hr]. intros E. apply byte_of_zero in E. subst c.
  discriminate Hc.
Qed.

(** Over the length of a literal, [strncmp] is 0 exactly on the strings
    that start with the literal. *)
Lemma strncmp_prefix (p e : string) :
  c_string p = true ->
  Libc.strncmp e p (String.length p) = 0 <-> exists v, e = p ++ v.
Proof.
  revert e; induction p as [|c p IH]; intros e Hp.
  - split; [intros _; now exists e | reflexivity].
  - apply c_string_head in Hp as [Hc Hp].
    cbn [String.length Libc.strncmp]. destruct e as [|d e].
    + split; [lia | intros [v Hv]; discriminate Hv].
    + destruct (Ascii.eqb d c) eqn:E.
      * apply Ascii.eqb_eq in E; subst d. rewrite (IH e Hp).
        split; intros [v Hv]; exists v; cbn [append] in *; congruence.
      * split.
        -- intros H. now apply byte_of_diff in E.
        -- intros [v Hv]. cbn [append] in Hv. apply Ascii.eqb_neq in E.
           congruence.
Qed.

(** Over one byte more than the literal, the comparison takes in the NUL
    that ends it: it is 0 on the literal itself and on nothing else. *)
Lemma strncmp_exact (p e : string) :
  c_string p = true -> c_string e = true ->
  Libc.strncmp e p (S (String.length p)) = 0 <-> e = p.
Proof.
  revert e; induction p as [|c p IH]; intros e Hp He.
  - cbn [String.length Libc.strncmp]. destruct e as [|d e].
    + split; reflexivity.
    + apply c_string_head in He as [Hd _]. split; [lia | discriminate].
  - apply c_string_head in Hp as [Hc Hp].
    cbn [String.length]. cbn [Libc.strncmp]. destruct e as [|d e].
    + split; [lia | discriminate].
    + apply c_string_head in He as [_ He].
      destruct (Ascii.eqb d c) eqn:E.
      * apply Ascii.eqb_eq in E; subst d. rewrite (IH e Hp He).
        split; congruence.
      * split.
        -- intros H. now apply byte_of_diff in E.
        -- intros H. apply Ascii.eqb_neq in E. congruence.
Qed.

(** X1.  The test of both filters drops exactly two kinds of entry: the
    entry [SANDBOX_ROUTE_TO_CONTEXT=] with an empty value, and every entry
    that starts with [LD_PRELOAD=].  All other entries pass, whatever their
    syntax. *)
Theorem keeps_false_iff (e : string) :
  c_string e = true ->
  keeps e = false <->
  e = "SANDBOX_ROUTE_TO_CONTEXT=" \/ exists value, e = "LD_PRELOAD=" ++ value.
Proof.
  intros He. unfold keeps.
  change 26%nat with (S (String.length "SANDBOX_ROUTE_TO_CONTEXT=")).
  change 11%nat with (String.length "LD_PRELOAD=").
  rewrite <- (strncmp_exact "SANDBOX_ROUTE_TO_CONTEXT=" e eq_refl He).
  rewrite <- (strncmp_prefix "LD_PRELOAD=" e eq_refl).
  rewrite andb_false_iff, !negb_false_iff, !Z.eqb_eq. reflexivity.
Qed.

Lemma keeps_false_iff_witness :
  c_string "LD_PRELOAD=/lib/router.so" = true /\
  c_string "SANDBOX_ROUTE_TO_CONTEXT=contextA" = true /\
  keeps "LD_PRELOAD=/lib/router.so" = false /\
  keeps "SANDBOX_ROUTE_TO_CONTEXT=contextA" <> false.
Proof.
  split; [reflexivity|]. split; [reflexivity|]. split.
  - apply (proj2 (@keeps_false_iff "LD_PRELOAD=/lib/router.so" eq_refl)).
    right. now exists "/lib/router.so".
  - intros H.
    apply (proj1 (@keeps_false_iff "SANDBOX_ROUTE_TO_CONTEXT=contextA" eq_refl))
      in H.
    destruct H as [H | [value H]]; discriminate H.
Defined.

(** ** Further properties of the routing attempt *)


(** ** Further properties of the request *)







Lemma append_empty_r (a : string) : a ++ "" = a.
Proof. induction a as [|c a IH]; cbn [append]; [reflexivity | now rewrite IH]. Qed.

Lemma concat_cons (x : string) (xs : list string) :
  String.concat "" (x :: xs) = x ++ String.concat "" xs.
Proof. destruct xs; cbn [String.concat append]; [now rewrite append_empty_r | reflexivity]. Qed.

Lemma concat_app (l1 l2 : list string) :
  String.concat "" (l1 ++ l2) = String.concat "" l1 ++ String.concat "" l2.
Proof.
  induction l1 as [|x l1 IH]; [reflexivity|].
  cbn [app]. now rewrite !concat_cons, IH, string_append_assoc.
Qed.

(** On the socket a line with a newline inside reads as two lines. *)
Lemma line_bytes_split (l1 l2 : list string) (x y : string) :
  String.concat ""
    (map (fun l => l ++ newline) (l1 ++ [(x ++ newline ++ y)%string] ++ l2)%list)
  = String.concat "" (map (fun l => l ++ newline) (l1 ++ [x; y] ++ l2)%list).
Proof.
  rewrite !map_app, !concat_app. f_equal. f_equal.
  cbn [map String.concat]. now rewrite !string_append_assoc.
Qed.

(** X4.  The bytes of a request do not tell an argument with an embedded
    newline from two arguments: an argument [a], newline, [ARG:b] sends
    the same bytes as the two arguments [a] and [b]. *)
Theorem newline_argument_reads_as_two (target pathname a b : string)
    (before after : list string) (envp : option (list string)) (s : proc) :
  wire_bytes
    (sent (encoded_request target pathname
             (Some (before ++ [(a ++ newline ++ "ARG:" ++ b)%string] ++ after)%list)
             envp) s)
  = wire_bytes
      (sent (encoded_request target pathname
               (Some (before ++ [a; b] ++ after)%list) envp) s).
Proof.
  unfold wire_bytes, sent, encoded_request, vector. cbn [wire].
  change (fun l => l ++ String "010" "") with (fun l => l ++ newline).
  rewrite !(map_app (append "ARG:")). cbn [map].
  change ("ARG:" ++ a ++ newline ++ "ARG:" ++ b)
    with (("ARG:" ++ a) ++ newline ++ "ARG:" ++ b).
  set (head := ["ROUTE"; "CONTEXT:" ++ target; "CMD:" ++ pathname]).
  set (tail := (map (append "ENV:") (filter keeps
                  match envp with Some l => l | None => [] end) ++ ["END"])%list).
  pose proof (line_bytes_split
                (wire s ++ head ++ map (append "ARG:") before)
                (map (append "ARG:") after ++ tail)
                ("ARG:" ++ a) ("ARG:" ++ b)) as H.
  repeat rewrite <- app_assoc in H. repeat rewrite <- app_assoc.
  exact H.
Qed.

(** ** Further properties of the PATH search *)

Lemma substring_length (n : nat) (s : string) :
  String.length (substring 0 n s) = Nat.min n (String.length s).
Proof.
  revert n; induction s as [|c s IH]; intros [|n]; cbn [substring String.length];
    try reflexivity.
  now rewrite IH.
Qed.

Lemma substring_rest (n : nat) (s : string) :
  exists rest, s = substring 0 n s ++ rest.
Proof.
  revert n; induction s as [|c s IH]; intros [|n]; cbn [substring].
  - now exists "".
  - now exists "".
  - now exists (String c s).
  - destruct (IH n) as [rest Hrest]. exists rest. cbn [append]. congruence.
Qed.

(** X5.  The path built for a PATH directory never exceeds the 4095 bytes
    the buffer holds: it is the first 4095 bytes of [dir/file], all of it
    when it is shorter. *)
Theorem fullpath_bounded (dir file : string) :
  String.length (fullpath dir file)
  = Nat.min 4095 (String.length (dir ++ "/" ++ file)) /\
  exists rest, dir ++ "/" ++ file = fullpath dir file ++ rest.
Proof.
  unfold fullpath, Libc.snprintf. change (4096 - 1)%nat with 4095%nat.
  split; [apply substring_length | apply substring_rest].
Qed.

Lemma has_byte_append (b : ascii) (x y : string) :
  has_byte b (x ++ y) = has_byte b x || has_byte b y.
Proof.
  induction x as [|c x IH]; cbn [append has_byte]; [reflexivity|].
  now rewrite IH, orb_assoc.
Qed.

Lemma strtok_from_tokens (delim : ascii) (s cur : string) :
  has_byte delim cur = false ->
  Forall (fun t => t <> "" /\ has_byte delim t = false)
    (Libc.strtok_from delim cur s).
Proof.
  revert cur; induction s as [|c s IH]; intros cur Hcur;
    cbn [Libc.strtok_from].
  - destruct cur; [constructor|].
    constructor; [split; [discriminate | exact Hcur] | constructor].
  - destruct (Ascii.eqb c delim) eqn:E.
    + destruct cur; [now apply IH|].
      constructor; [split; [discriminate | exact Hcur] | now apply IH].
    + apply IH. rewrite has_byte_append, Hcur. cbn [has_byte].
      now rewrite E.
Qed.

(** X6.  Every directory [execvp] probes is a non-empty piece of PATH with
    no colon in it: empty components of PATH (a leading, trailing or
    doubled colon) are never probed. *)
Theorem path_dirs_tokens (s : proc) :
  Forall (fun dir => dir <> "" /\ has_byte ":" dir = false) (path_dirs s).
Proof. unfold path_dirs, Libc.strtok. now apply strtok_from_tokens. Qed.

Lemma strtok_from_nil (delim : ascii) (cur : string) :
  Libc.strtok_from delim cur ""
  = match cur with EmptyString => [] | _ => [cur] end.
Proof. reflexivity. Qed.

Lemma strtok_from_split (delim : ascii) (a b cur : string) :
  Libc.strtok_from delim cur (a ++ String delim b)
  = (Libc.strtok_from delim cur a ++ Libc.strtok_from delim "" b)%list.
Proof.
  revert cur; induction a as [|c a IH]; intros cur;
    cbn [append Libc.strtok_from].
  - rewrite Ascii.eqb_refl. now destruct cur.
  - destruct (Ascii.eqb c delim).
    + destruct cur; rewrite IH; reflexivity.
    + apply IH.
Qed.

Lemma strtok_from_plain (delim : ascii) (a cur : string) :
  has_byte delim a = false ->
  Libc.strtok_from delim cur a
  = match cur ++ a with EmptyString => [] | t => [t] end.
Proof.
  revert cur; induction a as [|c a IH]; intros cur Ha;
    cbn [Libc.strtok_from].
  - rewrite append_empty_r. now destruct cur.
  - cbn [has_byte] in Ha. apply orb_false_iff in Ha as [Hc Ha].
    rewrite Hc, (IH _ Ha), string_append_assoc. reflexivity.
Qed.

(** X7.  The directories are the pieces of PATH between colons, in order:
    the directories of [a:b] are those of [a] followed by those of [b], and
    a non-empty piece without a colon is one directory. *)
Theorem path_tokens_by_piece (a b : string) :
  Libc.strtok (a ++ ":" ++ b) ":"
  = (Libc.strtok a ":" ++ Libc.strtok b ":")%list /\
  (has_byte ":" a = false -> a <> "" -> Libc.strtok a ":" = [a]).
Proof.
  unfold Libc.strtok. split.
  - apply (strtok_from_split ":" a b "").
  - intros Ha Hne. rewrite (strtok_from_plain ":" a "" Ha).
    cbn [append]. destruct a; [congruence | reflexivity].
Qed.

Lemma path_tokens_by_piece_witness :
  has_byte ":" "/usr/local/bin" = false /\ "/usr/local/bin" <> "" /\
  Libc.strtok "/usr/local/bin" ":" = ["/usr/local/bin"].
Proof.
  split; [reflexivity|]. split; [discriminate|].
  apply (proj2 (path_tokens_by_piece "/usr/local/bin" ""));
    [reflexivity | discriminate].
Defined.

Section MoreAdapters.

Variable FILE : Type.
Variable real_execve :
  string -> option (list string) -> option (list string) -> M Z.
Variable real_execvp : string -> option (list string) -> M Z.
Variable real_system : option string -> M Z.
Variable real_popen : string -> string -> M (option FILE).
Variable access_X_OK : string -> bool.
Variable net : transport.

(** X8.  Under routing with PATH unset, [execvp] probes [/usr/bin] and
    then [/bin] and routes under the first path that is executable, the
    file as given when neither is.  With PATH set but empty there is
    nothing to probe and the file is routed as given. *)
Theorem execvp_default_path (s : proc) (target file : string)
    (argv : option (list string)) :
  Libc.getenv (environ s) ACTIVATION = Some target ->
  (Libc.getenv (environ s) "PATH" = None ->
   execvp real_execve real_execvp access_X_OK net file argv s
   = route_to_context real_execve net
       (if access_X_OK (fullpath "/usr/bin" file)
        then fullpath "/usr/bin" file
        else if access_X_OK (fullpath "/bin" file)
             then fullpath "/bin" file
             else file)
       argv (Some (environ s)) s) /\
  (Libc.getenv (environ s) "PATH" = Some "" ->
   execvp real_execve real_execvp access_X_OK net file argv s
   = route_to_context real_execve net file argv (Some (environ s)) s).
Proof.
  intros Ht.
  rewrite (execvp_routed real_execve real_execvp access_X_OK net file argv s Ht).
  rewrite search_path_find. unfold path_dirs.
  split; intros ->.
  - change (Libc.strtok "/usr/bin:/bin" ":") with ["/usr/bin"; "/bin"].
    cbn [find]. unfold probes.
    destruct (access_X_OK (fullpath "/usr/bin" file)); [reflexivity|].
    destruct (access_X_OK (fullpath "/bin" file)); reflexivity.
  - reflexivity.
Qed.

(** X9.  Under routing neither [execvp] nor [system] ever calls the real
    primitive of its own name: their behaviour is the same whatever
    [real_execvp] and [real_system] are. *)
Theorem routed_adapters_bypass_real (s : proc) (target : string)
    (other_execvp : string -> option (list string) -> M Z)
    (other_system : option string -> M Z) :
  Libc.getenv (environ s) ACTIVATION = Some target ->
  (forall file argv,
     execvp real_execve real_execvp access_X_OK net file argv s
     = execvp real_execve other_execvp access_X_OK net file argv s) /\
  (forall command,
     system real_execve real_system net command s
     = system real_execve other_system net command s).
Proof.
  intros Ht. split.
  - intros file argv.
    now rewrite !(execvp_routed real_execve _ access_X_OK net file argv s Ht).
  - intros command. unfold system, bind at 1 3.
    rewrite should_route_eq, Ht. reflexivity.
Qed.

(** X10.  Under routing [system(NULL)] is routed like a command: the
    request names [/bin/sh] with the two arguments [sh] and [-c] and no
    third, and the verdict is awaited for it. *)
Theorem system_null_command (s : proc) (target : string) :
  Libc.getenv (environ s) ACTIVATION = Some target ->
  socket_ok net = true -> connect_ok net = true ->
  system real_execve real_system net None s
  = await_verdict real_execve net "/bin/sh" (Some ["sh"; "-c"])
      (Some (environ s))
      (sent (["ROUTE"; "CONTEXT:" ++ target; "CMD:/bin/sh"; "ARG:sh"; "ARG:-c"]
             ++ map (append "ENV:") (filter keeps (environ s))
             ++ ["END"]) s).
Proof.
  intros Ht Hs Hc. unfold system, bind at 1. rewrite should_route_eq, Ht.
  unfold bind, get_environ. cbn [sh_argv].
  now rewrite (route_connected real_execve net _ _ _ s Ht Hs Hc).
Qed.

(** X11.  For an environment in which at most 1023 entries pass the
    filter, the table a routed [popen] installs is exactly those entries,
    in order: none is lost. *)
Theorem popen_table_exact (s : proc) (target command type : string) :
  Libc.getenv (environ s) ACTIVATION = Some target ->
  (List.length (filter keeps (environ s)) <= 1023)%nat ->
  popen real_popen command type s
  = (result <- real_popen command type ;;
     set_environ (environ s) ;;
     ret result) (mkProc (filter keeps (environ s)) (wire s)).
Proof.
  intros Ht Hlen. rewrite (popen_routed real_popen command type s Ht).
  rewrite filter_environ_from by lia.
  change (1023 - 0)%nat with 1023%nat. now rewrite firstn_all2.
Qed.

(** X12.  The target context is the value of the first
    [SANDBOX_ROUTE_TO_CONTEXT] entry of [environ], whatever follows it and
    whatever the value, the empty one included: routing is then active and
    the request goes out for that context. *)
Theorem context_is_first_activation_value (s : proc)
    (before after : list string) (value pathname : string)
    (argv envp : option (list string)) :
  environ s
  = (before ++ ("SANDBOX_ROUTE_TO_CONTEXT=" ++ value)%string :: after)%list ->
  (forall e, In e before -> ~ names ACTIVATION e) ->
  should_route s = Returned true s /\
  (socket_ok net = true -> connect_ok net = true ->
   route_to_context real_execve net pathname argv envp s
   = await_verdict real_execve net pathname argv envp
       (sent (encoded_request value pathname argv envp) s)).
Proof.
  intros Henv Hbefore.
  assert (Libc.getenv (environ s) ACTIVATION = Some value) as Ht.
  { rewrite Henv. clear Henv.
    induction before as [|e before IH]; cbn [app Libc.getenv].
    - change (ACTIVATION ++ "=") with "SANDBOX_ROUTE_TO_CONTEXT=".
      now rewrite strip_prefix_append.
    - destruct (Libc.strip_prefix (ACTIVATION ++ "=") e) as [v|] eqn:E.
      + exfalso. apply (Hbefore e); [now left|].
        exists v. apply strip_prefix_Some in E.
        now rewrite string_append_assoc in E.
      + apply IH. intros e' He'. apply Hbefore. now right. }
  split.
  - now rewrite should_route_eq, Ht.
  - intros Hs Hc. now apply route_connected.
Qed.

End MoreAdapters.

(** ** Further properties of the verdict and of the popen table *)

Lemma digits_value_then (ds : list nat) (rest : string) (acc : Z) :
  Forall (fun d => (d < 10)%nat) ds -> starts_with_digit rest = false ->
  Libc.digits_value acc (digits_string ds ++ rest) = digits_number acc ds.
Proof.
  intros H Hrest; revert acc; induction H as [|d ds Hd _ IH]; intros acc.
  - cbn [digits_string append digits_number].
    apply digits_value_not_digit. now destruct rest.
  - cbn [digits_string append Libc.digits_value digits_number].
    rewrite digit_char_isdigit, digit_char_byte by assumption.
    rewrite <- IH. f_equal. lia.
Qed.

Lemma atoi_digits_then (ds : list nat) (rest : string) :
  Forall (fun d => (d < 10)%nat) ds -> ds <> [] ->
  starts_with_digit rest = false ->
  digits_number 0 ds <= INT_MAX ->
  Libc.atoi (digits_string ds ++ rest) = digits_number 0 ds /\
  Libc.atoi ("-" ++ digits_string ds ++ rest) = - digits_number 0 ds.
Proof.
  intros H Hne Hrest Hmax.
  pose proof (digits_number_nonneg ds (acc := 0) ltac:(lia)) as Hpos.
  pose proof (digits_value_then rest 0 H Hrest) as Hval.
  unfold INT_MAX in Hmax.
  assert (forall z, - 2 ^ 31 <= z <= 2 ^ 31 - 1 ->
            Libc.to_int (Z.max Libc.LONG_MIN (Z.min Libc.LONG_MAX z)) = z)
    as Hint.
  { intros z Hz.
    replace (Z.max Libc.LONG_MIN (Z.min Libc.LONG_MAX z)) with z
      by (unfold Libc.LONG_MIN, Libc.LONG_MAX; lia).
    apply to_int_small. unfold INT_MAX. lia. }
  split.
  - rewrite <- (Hint (digits_number 0 ds)) by lia.
    unfold Libc.atoi, Libc.strtol10. do 3 f_equal. rewrite <- Hval.
    destruct H as [|d ds Hd Hds]; [congruence|].
    destruct (digit_char_plain Hd) as (Hsp & Hminus & Hplus).
    cbn [digits_string append Libc.skip_space]. rewrite Hsp.
    destruct (digit_char d) as [b0 b1 b2 b3 b4 b5 b6 b7] eqn:E.
    destruct b0, b1, b2, b3, b4, b5, b6, b7; try reflexivity; congruence.
  - rewrite <- (Hint (- digits_number 0 ds)) by lia.
    unfold Libc.atoi, Libc.strtol10. do 3 f_equal. now rewrite <- Hval.
Qed.

(** X14.  Filtering a table that the [popen] loop produced gives the same
    table again. *)
Theorem filter_environ_idempotent (env : list string) :
  filter_environ (filter_environ env 0) 0 = filter_environ env 0.
Proof.
  rewrite !filter_environ_from by lia. change (1023 - 0)%nat with 1023%nat.
  assert (forall l : list string,
            Forall (fun e => keeps e = true) l -> filter keeps l = l) as Hall.
  { induction 1 as [|e l He _ IH]; [reflexivity|].
    cbn [filter]. now rewrite He, IH. }
  rewrite Hall.
  - rewrite firstn_firstn. now rewrite Nat.min_id.
  - apply Forall_forall. intros e He.
    assert (In e (filter keeps env)) as Hin.
    { rewrite <- (firstn_skipn 1023 (filter keeps env)).
      apply in_or_app. now left. }
    now apply filter_In in Hin.
Qed.

Section MoreVerdict.

Variable real_execve :
  string -> option (list string) -> option (list string) -> M Z.
Variable net : transport.

(** X13.  A reply that is a decimal numeral followed by text that does not
    start with a digit (a newline, say), 31 bytes at most, makes the
    process exit with the number of the numeral; with a minus sign in
    front, with the negated number. *)
Theorem verdict_with_trailing_text (s : proc) (target pathname : string)
    (argv envp : option (list string)) (ds : list nat) (rest : string) :
  Libc.getenv (environ s) ACTIVATION = Some target ->
  socket_ok net = true -> connect_ok net = true ->
  Forall (fun d => (d < 10)%nat) ds -> ds <> [] ->
  starts_with_digit rest = false ->
  digits_number 0 ds <= INT_MAX ->
  (String.length (digits_string ds ++ rest) < 31)%nat ->
  let s' := sent (encoded_request target pathname argv envp) s in
  (response net = Some (digits_string ds ++ rest) ->
   route_to_context real_execve net pathname argv envp s
   = Exited (digits_number 0 ds) s') /\
  (response net = Some ("-" ++ digits_string ds ++ rest) ->
   route_to_context real_execve net pathname argv envp s
   = Exited (- digits_number 0 ds) s').
Proof.
  intros Ht Hs Hc Hds Hne Hrest Hmax Hlen s'.
  destruct (atoi_digits_then rest Hds Hne Hrest Hmax) as [Hplain Hminus].
  rewrite (route_connected real_execve net pathname argv envp s Ht Hs Hc).
  split; intros Hr.
  - rewrite (await_reply real_execve net pathname argv envp _ Hr).
    + rewrite substring_whole by lia. now rewrite Hplain.
    + destruct ds; [congruence | discriminate].
  - rewrite (await_reply real_execve net pathname argv envp _ Hr)
      by discriminate.
    rewrite substring_whole by (cbn [append String.length]; lia).
    now rewrite Hminus.
Qed.

End MoreVerdict.

(** ** The further properties at concrete calls *)

Lemma execvp_default_path_witness :
  Libc.getenv ["SANDBOX_ROUTE_TO_CONTEXT=contextA"] ACTIVATION
  = Some "contextA" /\
  Libc.getenv ["SANDBOX_ROUTE_TO_CONTEXT=contextA"] "PATH" = None /\
  execvp Demo.real_execve Demo.real_execvp Demo.access_X_OK Demo.no_socket
    "ls" (Some ["ls"]) (mkProc ["SANDBOX_ROUTE_TO_CONTEXT=contextA"] [])
  = Replaced "/bin/ls" (Some ["ls"])
      (Some ["SANDBOX_ROUTE_TO_CONTEXT=contextA"])
      (mkProc ["SANDBOX_ROUTE_TO_CONTEXT=contextA"] []).
Proof.
  split; [reflexivity|]. split; [reflexivity|].
  rewrite (proj1 (@execvp_default_path Demo.real_execve Demo.real_execvp
                    Demo.access_X_OK Demo.no_socket
                    (mkProc ["SANDBOX_ROUTE_TO_CONTEXT=contextA"] [])
                    "contextA" "ls" (Some ["ls"]) eq_refl) eq_refl).
  reflexivity.
Defined.

Lemma routed_adapters_bypass_real_witness :
  Libc.getenv (environ Demo.routed) ACTIVATION = Some "contextA" /\
  system Demo.real_execve Demo.real_system Demo.no_socket (Some "echo hi")
    Demo.routed
  = system Demo.real_execve (fun _ s => Returned 127 s) Demo.no_socket
      (Some "echo hi") Demo.routed.
Proof.
  split; [reflexivity|].
  apply (proj2 (@routed_adapters_bypass_real Demo.real_execve
                  Demo.real_execvp Demo.real_system Demo.access_X_OK
                  Demo.no_socket Demo.routed "contextA" Demo.real_execvp
                  (fun _ s => Returned 127 s) eq_refl)).
Defined.

Lemma system_null_command_witness :
  Libc.getenv (environ Demo.routed) ACTIVATION = Some "contextA" /\
  socket_ok (Demo.daemon_up "1") = true /\
  connect_ok (Demo.daemon_up "1") = true /\
  system Demo.real_execve Demo.real_system (Demo.daemon_up "1") None
    Demo.routed
  = Exited 1
      (mkProc (environ Demo.routed)
         ["ROUTE"; "CONTEXT:contextA"; "CMD:/bin/sh"; "ARG:sh"; "ARG:-c";
          "ENV:HOME=/root"; "ENV:SANDBOX_ROUTE_TO_CONTEXT=contextA";
          "ENV:PATH=/usr/local/bin::/usr:/bin"; "END"]).
Proof.
  split; [reflexivity|]. split; [reflexivity|]. split; [reflexivity|].
  rewrite (@system_null_command Demo.real_execve Demo.real_system
             (Demo.daemon_up "1") Demo.routed "contextA"
             eq_refl eq_refl eq_refl).
  reflexivity.
Defined.

Lemma popen_table_exact_witness :
  Libc.getenv (environ Demo.routed) ACTIVATION = Some "contextA" /\
  (List.length (filter keeps (environ Demo.routed)) <= 1023)%nat /\
  popen Demo.real_popen "ls" "r" Demo.routed
  = Returned (Some 3%nat) Demo.routed.
Proof.
  assert (List.length (filter keeps (environ Demo.routed)) <= 1023)%nat
    as Hlen by (vm_compute; lia).
  split; [reflexivity|]. split; [exact Hlen|].
  rewrite (@popen_table_exact nat Demo.real_popen Demo.routed "contextA"
             "ls" "r" eq_refl Hlen).
  reflexivity.
Defined.

Lemma context_is_first_activation_value_witness :
  environ Demo.crowded
  = ([] ++ ("SANDBOX_ROUTE_TO_CONTEXT=" ++ "")%string :: repeat "A=1" 1030)%list /\
  (forall e, In e [] -> ~ names ACTIVATION e) /\
  should_route Demo.crowded = Returned true Demo.crowded.
Proof.
  split; [reflexivity|]. split; [intros e []|].
  apply (proj1 (@context_is_first_activation_value Demo.real_execve
                  Demo.no_socket Demo.crowded [] (repeat "A=1" 1030) ""
                  "/bin/ls" None None eq_refl (fun e (H : In e []) => match H with end))).
Defined.

Lemma verdict_with_trailing_text_witness :
  Libc.getenv (environ Demo.routed) ACTIVATION = Some "contextA" /\
  digits_string [1; 2]%nat ++ newline = "12" ++ newline /\
  route_to_context Demo.real_execve (Demo.daemon_up ("12" ++ newline))
    "/bin/ls" (Some ["ls"]) None Demo.routed
  = Exited 12
      (mkProc (environ Demo.routed)
         ["ROUTE"; "CONTEXT:contextA"; "CMD:/bin/ls"; "ARG:ls"; "END"]).
Proof.
  split; [reflexivity|]. split; [reflexivity|].
  assert (Forall (fun d => (d < 10)%nat) [1; 2]%nat) as Hds
    by (repeat constructor).
  apply (proj1 (@verdict_with_trailing_text Demo.real_execve
                  (Demo.daemon_up ("12" ++ newline)) Demo.routed "contextA"
                  "/bin/ls" (Some ["ls"]) None [1; 2]%nat newline
                  eq_refl eq_refl eq_refl Hds
                  ltac:(discriminate) eq_refl ltac:(vm_compute; discriminate)
                  ltac:(vm_compute; lia)) eq_refl).
Defined.

(** X15.  For [execve] the fallback is transparent: when no socket is to be
    had or the daemon does not accept, [execve] is the real [execve] on
    the caller's arguments in the unchanged process, whether or not the
    activation variable is set; when the daemon accepts and sends nothing,
    it is the real [execve] on the caller's arguments with [environ]
    unchanged. *)
Theorem execve_fallback_transparent
    (real_execve : string -> option (list string) -> option (list string) -> M Z)
    (net : transport) (pathname : string) (argv envp : option (list string))
    (s : proc) :
  (socket_ok net = false \/ connect_ok net = false ->
   execve real_execve net pathname argv envp s
   = real_execve pathname argv envp s) /\
  (response net = Some "" \/ response net = None ->
   exists s', environ s' = environ s /\
     execve real_execve net pathname argv envp s
     = real_execve pathname argv envp s').
Proof.
  split; [apply execve_unroutable|].
  intros Hr.
  assert (execve real_execve net pathname argv envp s
          = route_to_context real_execve net pathname argv envp s) as ->.
  { unfold execve, bind. rewrite should_route_eq.
    destruct (Libc.getenv (environ s) ACTIVATION) eqn:Ht; [reflexivity|].
    symmetry. now apply route_unset. }
  destruct (Libc.getenv (environ s) ACTIVATION) as [target|] eqn:Ht;
    [|exists s; split; [reflexivity | now apply route_unset]].
  destruct (socket_ok net) eqn:Hs;
    [|exists s; split; [reflexivity | now apply route_no_socket]].
  destruct (connect_ok net) eqn:Hc;
    [|exists s; split; [reflexivity | now apply route_no_connect]].
  exists (sent (encoded_request target pathname argv envp) s).
  split; [reflexivity|].
  rewrite (route_connected real_execve net pathname argv envp s Ht Hs Hc).
  now apply await_nothing.
Qed.

Lemma execve_fallback_transparent_witness :
  (socket_ok Demo.daemon_refusing = false \/
   connect_ok Demo.daemon_refusing = false) /\
  execve Demo.real_execve Demo.daemon_refusing "/bin/ls" (Some ["ls"]) None
    Demo.routed
  = Replaced "/bin/ls" (Some ["ls"]) None Demo.routed.
Proof.
  split; [now right|].
  rewrite (proj1 (@execve_fallback_transparent Demo.real_execve
                    Demo.daemon_refusing "/bin/ls" (Some ["ls"]) None
                    Demo.routed) (or_intror eq_refl)).
  reflexivity.
Defined.
